(** * Verification of the lab-tools gRPC client (src/client/src/main.rs)

    A shallow embedding of [ToolClient::new], [ToolClient::run_script],
    the arms of [main], the proto discovery of the build script
    (src/client/build.rs), and the parts of Rust's standard library that
    they rely on. Rust strings are modelled as their UTF-8 byte sequences
    ([string] of [ascii]); the operations that work on characters
    ([str::trim], [Debug]) decode them to code points. *)

From Stdlib Require Import String Ascii List ZArith Bool Lia.
Import ListNotations.
Open Scope string_scope.

(** ** Rust standard formatting used by the client *)
Module RustFmt.
Local Open Scope Z_scope.

Definition nl : ascii := ascii_of_nat 10.
Definition dq : ascii := ascii_of_nat 34.
Definition bs : ascii := ascii_of_nat 92.

(** One-character string. *)
Definition chr (c : ascii) : string := String c EmptyString.

(** Decimal digits of a [Decimal.uint]. *)
Fixpoint uint_to_string (d : Decimal.uint) : string :=
  match d with
  | Decimal.Nil => EmptyString
  | Decimal.D0 d => String "0" (uint_to_string d)
  | Decimal.D1 d => String "1" (uint_to_string d)
  | Decimal.D2 d => String "2" (uint_to_string d)
  | Decimal.D3 d => String "3" (uint_to_string d)
  | Decimal.D4 d => String "4" (uint_to_string d)
  | Decimal.D5 d => String "5" (uint_to_string d)
  | Decimal.D6 d => String "6" (uint_to_string d)
  | Decimal.D7 d => String "7" (uint_to_string d)
  | Decimal.D8 d => String "8" (uint_to_string d)
  | Decimal.D9 d => String "9" (uint_to_string d)
  end.

(** [impl Display for i32 / i64]: optional minus sign, then the digits. *)
Definition int_display (z : Z) : string :=
  match Z.to_int z with
  | Decimal.Pos u => uint_to_string u
  | Decimal.Neg u => "-" ++ uint_to_string u
  end.

(** [impl Display for bool]. *)
Definition bool_display (b : bool) : string :=
  if b then "true" else "false".

(** ** UTF-8 *)

(** The value of a byte, and the byte of a value in [0, 255]. *)
Definition byte (a : ascii) : Z := Z.of_N (N_of_ascii a).
Definition of_byte (z : Z) : ascii := ascii_of_N (Z.to_N z).

Definition in_range (lo hi z : Z) : bool := (lo <=? z) && (z <=? hi).

(** A continuation byte [0x80..0xBF], and its six payload bits. *)
Definition cont (a : ascii) : bool := in_range 128 191 (byte a).
Definition low6 (a : ascii) : Z := byte a - 128.

(** [core::str::from_utf8]: the code points of a well-formed UTF-8 byte
    sequence (shortest form, no surrogates, at most U+10FFFF), [None] on
    any ill-formed sequence. *)
Fixpoint utf8_decode (s : string) : option (list Z) :=
  match s with
  | EmptyString => Some []
  | String a r =>
      let b := byte a in
      if b <? 128 then option_map (cons b) (utf8_decode r)
      else match r with
      | EmptyString => None
      | String a2 r2 =>
          if in_range 194 223 b then
            if cont a2 then
              option_map (cons ((b - 192) * 64 + low6 a2)) (utf8_decode r2)
            else None
          else match r2 with
          | EmptyString => None
          | String a3 r3 =>
              if in_range 224 239 b then
                let lo2 := if b =? 224 then 160 else 128 in
                let hi2 := if b =? 237 then 159 else 191 in
                if in_range lo2 hi2 (byte a2) && cont a3 then
                  option_map (cons ((b - 224) * 4096 + low6 a2 * 64 + low6 a3))
                             (utf8_decode r3)
                else None
              else match r3 with
              | EmptyString => None
              | String a4 r4 =>
                  if in_range 240 244 b then
                    let lo2 := if b =? 240 then 144 else 128 in
                    let hi2 := if b =? 244 then 143 else 191 in
                    if in_range lo2 hi2 (byte a2) && cont a3 && cont a4 then
                      option_map (cons ((b - 240) * 262144 + low6 a2 * 4096
                                        + low6 a3 * 64 + low6 a4))
                                 (utf8_decode r4)
                    else None
                  else None
              end
          end
      end
  end.

(** Whether a byte sequence is well-formed UTF-8, i.e. may be the
    content of a Rust [String]. *)
Definition utf8_valid (s : string) : bool :=
  match utf8_decode s with
  | Some _ => true
  | None => false
  end.

(** [char::encode_utf8]. *)
Definition utf8_encode_char (c : Z) : string :=
  if c <? 128 then chr (of_byte c)
  else if c <? 2048 then
    String (of_byte (192 + c / 64)) (chr (of_byte (128 + c mod 64)))
  else if c <? 65536 then
    String (of_byte (224 + c / 4096))
      (String (of_byte (128 + (c / 64) mod 64)) (chr (of_byte (128 + c mod 64))))
  else
    String (of_byte (240 + c / 262144))
      (String (of_byte (128 + (c / 4096) mod 64))
         (String (of_byte (128 + (c / 64) mod 64)) (chr (of_byte (128 + c mod 64))))).

Fixpoint utf8_encode (cs : list Z) : string :=
  match cs with
  | [] => EmptyString
  | c :: r => utf8_encode_char c ++ utf8_encode r
  end.

(** ** [impl Debug for str] *)

(** Lower-case hexadecimal digits of a number, without leading zeros
    (at most [fuel] digits). *)
Definition hex_digit (z : Z) : ascii :=
  if z <? 10 then of_byte (48 + z) else of_byte (87 + z).

Fixpoint hex_digits (fuel : nat) (z : Z) : string :=
  match fuel with
  | O => EmptyString
  | S f => (if z <? 16 then EmptyString else hex_digits f (z / 16))
           ++ chr (hex_digit (z mod 16))
  end.

(** [char::escape_unicode]: [\u{...}]. *)
Definition escape_unicode (c : Z) : string :=
  String bs "u{" ++ hex_digits 8 c ++ "}".

Section Escape.
(** The Unicode tables of [core::unicode] consulted for non-ASCII code
    points: [printable::is_printable] and the [Grapheme_Extend]
    property. *)
Variable is_printable : Z -> bool.
Variable is_grapheme_extended : Z -> bool.

(** [char::escape_debug_ext] with the arguments of [impl Debug for str]:
    grapheme extenders escaped, double quote escaped, single quote not.
    On ASCII the tables are fixed: [0x20..0x7E] is printable, the rest
    is not, and no ASCII character extends a grapheme. *)
Definition char_escape_debug (c : Z) : string :=
  if c =? 0 then String bs "0"
  else if c =? 9 then String bs "t"
  else if c =? 13 then String bs "r"
  else if c =? 10 then String bs "n"
  else if c =? 92 then String bs (chr bs)
  else if c =? 34 then String bs (chr dq)
  else if c <? 128 then
    (if (32 <=? c) && (c <? 127) then utf8_encode_char c else escape_unicode c)
  else if is_grapheme_extended c then escape_unicode c
  else if is_printable c then utf8_encode_char c
  else escape_unicode c.

Fixpoint escape_chars (cs : list Z) : string :=
  match cs with
  | [] => EmptyString
  | c :: r => char_escape_debug c ++ escape_chars r
  end.

(** The escaped text of a string, character by character. A Rust
    [String] is always well-formed UTF-8; the last case is never taken
    on one. *)
Definition escape_debug (s : string) : string :=
  match utf8_decode s with
  | Some cs => escape_chars cs
  | None => s
  end.

(** [impl Debug for str]: the escaped text between double quotes. *)
Definition str_debug (s : string) : string :=
  chr dq ++ escape_debug s ++ chr dq.

(** [impl Debug for Option<String>]. *)
Definition option_string_debug (o : option string) : string :=
  match o with
  | None => "None"
  | Some s => "Some(" ++ str_debug s ++ ")"
  end.

End Escape.

(** Text made of printable ASCII characters other than the double quote
    and the backslash: the characters [Debug] leaves as they are whatever
    the Unicode tables. *)
Fixpoint plain_ascii (s : string) : bool :=
  match s with
  | EmptyString => true
  | String a r =>
      in_range 32 126 (byte a) && negb (byte a =? 34) && negb (byte a =? 92)
      && plain_ascii r
  end.

(** ** [str::trim] *)

(** [char::is_whitespace]: the code points with the Unicode [White_Space]
    property. *)
Definition is_whitespace (c : Z) : bool :=
  in_range 9 13 c || (c =? 32) || (c =? 133) || (c =? 160) || (c =? 5760)
  || in_range 8192 8202 c || (c =? 8232) || (c =? 8233) || (c =? 8239)
  || (c =? 8287) || (c =? 12288).

Fixpoint trim_start_chars (cs : list Z) : list Z :=
  match cs with
  | [] => []
  | c :: r => if is_whitespace c then trim_start_chars r else cs
  end.

Definition trim_chars (cs : list Z) : list Z :=
  rev (trim_start_chars (rev (trim_start_chars cs))).

(** [str::trim]: the text without its leading and trailing white-space
    characters. A Rust [String] is always well-formed UTF-8; the last
    case is never taken on one. *)
Definition trim (s : string) : string :=
  match utf8_decode s with
  | Some cs => utf8_encode (trim_chars cs)
  | None => s
  end.

(** [str::contains] for a string pattern. *)
Fixpoint contains (hay needle : string) : bool :=
  if String.prefix needle hay then true
  else match hay with
       | EmptyString => false
       | String _ r => contains r needle
       end.

End RustFmt.
Import RustFmt.

(** ** Messages produced by prost from the proto schema *)

(** [prost_types::value::Kind], [Value], [Struct] and [ListValue]. A
    [NumberValue] carries the IEEE-754 bit pattern of its [f64]; a
    [NullValue] the [i32] of the [NullValue] enum. [Struct.fields] is a
    [BTreeMap<String, Value>], modelled as its list of entries. *)
Inductive Kind : Type :=
| NullValue (n : Z)
| NumberValue (bits : Z)
| StringValue (s : string)
| BoolValue (b : bool)
| StructValue (s : Struct)
| ListValue (values : list Value)
with Value : Type :=
| mkValue (kind : option Kind)
with Struct : Type :=
| mkStruct (fields : list (string * Value)).

Definition value_kind (v : Value) : option Kind :=
  match v with mkValue k => k end.

Definition struct_fields (s : Struct) : list (string * Value) :=
  match s with mkStruct f => f end.

(** [BTreeMap::get]. *)
Fixpoint fields_get (k : string) (m : list (string * Value)) : option Value :=
  match m with
  | [] => None
  | (k', v) :: r => if String.eqb k k' then Some v else fields_get k r
  end.

(** [toolbox::command::RunScript] and the [toolbox::Command] oneof. *)
Module toolbox.
Record RunScript := {
  script_content : string;
  blocking : bool
}.
Inductive command_Command := RunScript_ (r : RunScript).
Record Command := { command : option command_Command }.
End toolbox.

(** The generic [Command] envelope: one variant per tool driver. Only the
    [Toolbox] variant is built by the client; the other drivers are named
    by their package. *)
Inductive ToolCommand :=
| Toolbox (c : toolbox.Command)
| OtherTool (package : string).

Record Command := { tool_command : option ToolCommand }.

(** The generic reply of [execute_command]. *)
Record CommandReply := {
  response : Z;
  error_message : option string;
  meta_data : option Struct
}.

(** The reply of [get_status]. *)
Record StatusReply := {
  status : Z;
  uptime : Z;
  status_error_message : option string
}.

(** [tonic::Status] and [tonic::transport::Error]. *)
Record Status := { status_code : Z; status_message : string }.
Record TransportError := { transport_cause : string }.

Inductive result (A E : Type) : Type :=
| Ok (a : A)
| Err (e : E).
Arguments Ok {A E} a.
Arguments Err {A E} e.

(** [anyhow::Error]: a root cause with a chain of contexts. *)
Inductive Error :=
| ErrMsg (msg : string)
| ErrRpc (s : Status)
| ErrTransport (t : TransportError)
| ErrIo (message : string)
| ErrContext (context : string) (cause : Error).

(** Remote calls issued by the client, in order. *)
Inductive Rpc :=
| RpcExecute (c : Command)
| RpcGetStatus.

(** ** A scripted server, used to run the client on concrete inputs *)

(** The server answers [execute_command] with the next queued reply and
    with [UNAVAILABLE] once the queue is empty. *)
Definition scripted_execute (q : list CommandReply) (_ : Command)
  : list CommandReply * result CommandReply Status :=
  match q with
  | [] => ([], Err {| status_code := 14; status_message := "unavailable" |})
  | r :: q' => (q', Ok r)
  end.

Definition scripted_status (q : list CommandReply)
  : list CommandReply * result StatusReply Status :=
  (q, Ok {| status := 3; uptime := 120; status_error_message := None |}).

(** A connector that reaches no address. *)
Definition unreachable (_ : string) : result (list CommandReply) TransportError :=
  Err {| transport_cause := "transport error" |}.

(** Formatters to instantiate the library parameters in concrete runs. *)
Definition sample_f64_display (_ : Z) : string := "0".
Definition sample_kind_debug (_ : Kind) : string := "Kind".
Definition sample_status_display (s : Status) : string := status_message s.

(** Replies used in the concrete runs. *)
Definition reply_bool : CommandReply :=
  {| response := 1; error_message := None;
     meta_data := Some (mkStruct [("response", mkValue (Some (BoolValue true)))]) |}.

Definition reply_failed : CommandReply :=
  {| response := 2; error_message := Some "tool offline"; meta_data := None |}.

(** A failure whose message quotes a word. *)
Definition reply_quoted : CommandReply :=
  {| response := 0;
     error_message := Some ("name " ++ chr dq ++ "x" ++ chr dq ++ " is not defined");
     meta_data := None |}.

Definition reply_empty : CommandReply :=
  {| response := 1; error_message := None; meta_data := None |}.

Definition reply_kindless : CommandReply :=
  {| response := 1; error_message := None;
     meta_data := Some (mkStruct [("response", mkValue None)]) |}.

(** The subcommands of the command line (clap's [Commands]). *)
Module Commands.
Inductive t :=
| Status
| Exec (script : string) (blocking : bool)
| Repl
| Demo.
End Commands.

(** The parsed command line (clap's [Cli]). *)
Record Cli := {
  server : string;
  command : Commands.t
}.

(** ** The proto discovery of the build script (src/client/build.rs) *)
Module Build.

(** [Box<dyn Error>] as the build script produces it: an I/O error, or
    the message of a [&str] converted with [into]. *)
Inductive BoxError :=
| Io (e : string)
| Msg (m : string).

(** How the script stops: by returning, or by a panic. *)
Inductive Exit (A : Type) :=
| Done (r : result A BoxError)
| Panic (msg : string).
Arguments Done {A} r.
Arguments Panic {A} msg.

(** The message of [Option::unwrap] on [None]. *)
Definition unwrap_none : string :=
  "called `Option::unwrap()` on a `None` value".

(** What the build script sees of the world: [Path::exists],
    [fs::read_dir] (the file names of the entries, each possibly an I/O
    error) and [tonic_build]'s [compile]. *)
Record Env := {
  path_exists : string -> bool;
  read_dir : string -> result (list (result string string)) string;
  compile : list string -> result unit string
}.

(** The text before and after the last occurrence of [c] in [s]. *)
Fixpoint split_last (c : ascii) (s : string) : option (string * string) :=
  match s with
  | EmptyString => None
  | String x r =>
      match split_last c r with
      | Some (b, a) => Some (String x b, a)
      | None => if Ascii.eqb x c then Some (EmptyString, r) else None
      end
  end.

(** Whether [c] occurs in [s]. *)
Fixpoint has_char (c : ascii) (s : string) : bool :=
  match s with
  | EmptyString => false
  | String x r => Ascii.eqb x c || has_char c r
  end.

(** [Path::file_name] of a path whose last component is a normal name:
    the text after the last separator. *)
Definition file_name (p : string) : string :=
  match split_last "/" p with
  | Some (_, a) => a
  | None => p
  end.

(** [rsplit_file_at_dot] of [std::path]: [(before, after)] of
    [rsplitn(2, '.')], with [".."] and a leading lone dot giving no
    extension. *)
Definition rsplit_file_at_dot (file : string) : option string * option string :=
  if String.eqb file ".." then (Some file, None)
  else match split_last "." file with
       | None => (None, Some file)
       | Some (before, after) =>
           if String.eqb before "" then (Some file, None)
           else (Some before, Some after)
       end.

(** [Path::extension]: [before.and(after)]. *)
Definition extension (p : string) : option string :=
  match rsplit_file_at_dot (file_name p) with
  | (Some _, after) => after
  | (None, _) => None
  end.

(** [path.extension().and_then(|s| s.to_str()) == Some("proto")]. *)
Definition is_proto (p : string) : bool :=
  match extension p with
  | Some e => String.eqb e "proto"
  | None => false
  end.

Definition controller_proto : string := "tools/controller.proto".
Definition grpc_interfaces_dir : string := "tools/grpc_interfaces".

(** The [for] loop over the directory entries: the proto paths found and
    the warnings printed, the first entry error, or the panic of
    [path.to_str().unwrap()] on a proto path that is not UTF-8 (file
    names are byte strings on Unix). *)
Fixpoint scan_entries (dir : string) (es : list (result string string))
         (protos out : list string) : list string * Exit (list string) :=
  match es with
  | [] => (out, Done (Ok protos))
  | Err e :: _ => (out, Done (Err (Io e)))
  | Ok name :: r =>
      let path := dir ++ "/" ++ name in
      if is_proto path then
        if utf8_valid path then
          scan_entries dir r (app protos [path])
            (app out ["cargo:warning=Found proto file: " ++ path ++ chr nl])
        else (out, Panic unwrap_none)
      else scan_entries dir r protos out
  end.

(** [main] of the build script: what it prints, the list handed to
    [compile] when it gets that far, and its result. *)
Definition build_main (env : Env)
  : list string * option (list string) * Exit unit :=
  let out0 := ["cargo:warning=Starting proto compilation..." ++ chr nl] in
  let protos0 := if path_exists env controller_proto then [controller_proto] else [] in
  let scanned :=
    if path_exists env grpc_interfaces_dir then
      match read_dir env grpc_interfaces_dir with
      | Err e => (out0, Done (Err (Io e)))
      | Ok es => scan_entries grpc_interfaces_dir es protos0 out0
      end
    else (out0, Done (Ok protos0)) in
  match scanned with
  | (out, Panic m) => (out, None, Panic m)
  | (out, Done (Err e)) => (out, None, Done (Err e))
  | (out, Done (Ok [])) => (out, None, Done (Err (Msg "No proto files found!")))
  | (out, Done (Ok proto_files)) =>
      let out1 := app out ["cargo:warning=Compiling "
                           ++ int_display (Z.of_nat (length proto_files))
                           ++ " proto files" ++ chr nl] in
      match compile env proto_files with
      | Err e => (out1, Some proto_files, Done (Err (Io e)))
      | Ok _ => (app out1 ["cargo:warning=Proto compilation complete!" ++ chr nl],
                 Some proto_files, Done (Ok tt))
      end
  end.

(** A directory entry on which the loop panics: a proto path that is
    not UTF-8. *)
Definition unwrap_panics (dir name : string) : bool :=
  is_proto (dir ++ "/" ++ name) && negb (utf8_valid (dir ++ "/" ++ name)).

(** The proto files the build script hands to [compile] on a readable
    directory: [controller.proto] when it exists, then the entries with
    the [proto] extension, in directory order. *)
Definition expected_protos (env : Env) (names : list string) : list string :=
  app (if path_exists env controller_proto then [controller_proto] else [])
      (map (fun n => grpc_interfaces_dir ++ "/" ++ n)
           (filter (fun n => is_proto (grpc_interfaces_dir ++ "/" ++ n)) names)).

End Build.

(** A status RPC that fails, and a connector that always connects. *)
Definition status_unavailable (q : list CommandReply)
  : list CommandReply * result StatusReply Status :=
  (q, Err {| status_code := 14; status_message := "unavailable" |}).

Definition reachable (q : list CommandReply) (_ : string)
  : result (list CommandReply) TransportError := Ok q.

(** A build tree without [controller.proto] whose interface directory
    holds two protos, a hidden [.proto] and a README. *)
Definition sample_build_env : Build.Env :=
  {| Build.path_exists := fun p => String.eqb p Build.grpc_interfaces_dir;
     Build.read_dir := fun _ => Ok (map Ok ["toolbox.proto"; ".proto"; "README.md"; "pf400.proto"]);
     Build.compile := fun _ => Ok tt |}.

(** A build tree whose second directory entry cannot be read. *)
Definition broken_build_env : Build.Env :=
  {| Build.path_exists := fun _ => true;
     Build.read_dir := fun _ => Ok [Ok "toolbox.proto"; Err "permission denied"];
     Build.compile := fun _ => Ok tt |}.

(** A file name in Latin-1, not UTF-8: the byte 0xE9 then [.proto]. *)
Definition latin1_proto : string := String (ascii_of_nat 233) ".proto".

(** A build tree whose second entry is that file. *)
Definition latin1_build_env : Build.Env :=
  {| Build.path_exists := fun _ => true;
     Build.read_dir := fun _ => Ok [Ok "toolbox.proto"; Ok latin1_proto; Ok "pf400.proto"];
     Build.compile := fun _ => Ok tt |}.

(** A no-break space (U+00A0) in UTF-8. *)
Definition nbsp : string := String (ascii_of_nat 194) (chr (ascii_of_nat 160)).

(** Unicode tables to instantiate the formatting parameters in concrete
    runs (only their ASCII part, which is fixed, is used there). *)
Definition sample_is_printable (_ : Z) : bool := true.
Definition sample_is_grapheme_extended (_ : Z) : bool := false.

Section Client.

(** [impl Display for f64], on the bit pattern of the number. *)
Variable f64_display : Z -> string.
(** [impl Debug for prost_types::value::Kind]. *)
Variable kind_debug : Kind -> string.
(** [impl Display for tonic::Status]. *)
Variable status_display : Status -> string.
(** The Unicode tables of [core::unicode] used by [Debug] on strings,
    for non-ASCII code points (see [RustFmt.char_escape_debug]). *)
Variable is_printable : Z -> bool.
Variable is_grapheme_extended : Z -> bool.

(** The remote tool driver behind the channel: its state and the two
    RPCs of the generated stub. *)
Variable Srv : Type.
Variable execute_command_rpc : Srv -> Command -> Srv * result CommandReply Status.
Variable get_status_rpc : Srv -> Srv * result StatusReply Status.
(** [ToolDriverClient::connect]: parse the address as an endpoint and
    open the channel. *)
Variable connect : string -> result Srv TransportError.

(** [impl Display for anyhow::Error]: the outermost message. *)
Definition error_display (e : Error) : string :=
  match e with
  | ErrMsg m => m
  | ErrRpc s => status_display s
  | ErrTransport t => transport_cause t
  | ErrIo m => m
  | ErrContext c _ => c
  end.

(** [ToolClient]: the bound stub, and the calls sent through it. *)
Record ToolClient := {
  srv : Srv;
  sent : list Rpc
}.

(** Client operations: state passing over [ToolClient], failing with
    an [anyhow::Error]. *)
Definition M (A : Type) : Type := ToolClient -> ToolClient * result A Error.

Definition ret {A} (a : A) : M A := fun cl => (cl, Ok a).
Definition fail {A} (e : Error) : M A := fun cl => (cl, Err e).
Definition bind {A B} (m : M A) (k : A -> M B) : M B :=
  fun cl => match m cl with
            | (cl', Ok a) => k a cl'
            | (cl', Err e) => (cl', Err e)
            end.

Local Notation "x <- m ;; k" := (bind m (fun x => k))
  (at level 61, m at next level, right associativity).

(** [self.client.execute_command(Request::new(c)).await?]. *)
Definition execute_command (c : Command) : M CommandReply :=
  fun cl =>
    let '(s', r) := execute_command_rpc (srv cl) c in
    let cl' := {| srv := s'; sent := app (sent cl) [RpcExecute c] |} in
    match r with
    | Ok rep => (cl', Ok rep)
    | Err st => (cl', Err (ErrRpc st))
    end.

(** [ToolClient::get_status]. *)
Definition get_status : M StatusReply :=
  fun cl =>
    let '(s', r) := get_status_rpc (srv cl) in
    let cl' := {| srv := s'; sent := app (sent cl) [RpcGetStatus] |} in
    match r with
    | Ok rep => (cl', Ok rep)
    | Err st => (cl', Err (ErrRpc st))
    end.

(** [ToolClient::new]. *)
Definition new (address : string) : result ToolClient Error :=
  match connect address with
  | Ok s => Ok {| srv := s; sent := [] |}
  | Err e => Err (ErrContext ("Failed to connect to " ++ address)
                             (ErrTransport e))
  end.

(** [run_script], lines 26-37: the command envelope. *)
Definition run_script_command (script : string) (blocking : bool) : Command :=
  let script_cmd := {| toolbox.script_content := script;
                       toolbox.blocking := blocking |} in
  let toolbox_cmd := {| toolbox.command := Some (toolbox.RunScript_ script_cmd) |} in
  {| tool_command := Some (Toolbox toolbox_cmd) |}.

Definition no_output : string := "Script executed (no output)".

(** [run_script], lines 53-59: the match on the value's kind. *)
Definition kind_display (k : Kind) : string :=
  match k with
  | StringValue s => s
  | NumberValue n => f64_display n
  | BoolValue b => bool_display b
  | NullValue _ => "null"
  | _ => kind_debug k
  end.

(** [run_script], lines 49-64: output extracted from the metadata. *)
Definition script_output (reply : CommandReply) : string :=
  match meta_data reply with
  | Some metadata =>
      match fields_get "response" (struct_fields metadata) with
      | Some response_field =>
          match value_kind response_field with
          | Some kind => kind_display kind
          | None => no_output
          end
      | None => no_output
      end
  | None => no_output
  end.

(** The message of the [bail!] at lines 44-45. *)
Definition failure_message (reply : CommandReply) : string :=
  "Script execution failed. Code: " ++ int_display (response reply)
  ++ ", Error: "
  ++ option_string_debug is_printable is_grapheme_extended (error_message reply).

(** [ToolClient::run_script]. *)
Definition run_script (script : string) (blocking : bool) : M string :=
  reply <- execute_command (run_script_command script blocking) ;;
  if negb (Z.eqb (response reply) 1)
  then fail (ErrMsg (failure_message reply))
  else ret (script_output reply).


(** ** The [status] arm of [main] (lines 112-123) *)

(** The lines printed for a status reply. *)
Definition status_lines (st : StatusReply) : list string :=
  app [String nl "âœ“ Server Status:" ++ chr nl;
   "  State: " ++ int_display (status st) ++ " (3=READY)" ++ chr nl;
   "  Uptime: " ++ int_display (uptime st) ++ " seconds" ++ chr nl]
  (match status_error_message st with
     | Some err => if negb (String.eqb err "") then
                     ["  Error: " ++ err ++ chr nl]
                   else []
     | None => []
     end).

(** The whole arm: what it prints, and the error [main] returns. *)
Definition status_arm (cl : ToolClient) : ToolClient * list string * result unit Error :=
  let out := ["Checking server status..." ++ chr nl] in
  match get_status cl with
  | (cl', Ok st) => (cl', app out (status_lines st), Ok tt)
  | (cl', Err e) => (cl', out, Err e)
  end.

(** ** The [repl] arm of [main] (lines 131-162) *)

(** The process state seen by the loop: what is left on standard input,
    what has been written to standard output, whether standard output
    still accepts writes (it stops doing so when the reader has closed
    it), and the client. *)
Record Repl := {
  stdin : string;
  stdout : list string;
  stdout_open : bool;
  client : ToolClient
}.

(** [BufRead::read_until(b'\n')]: the bytes up to and including the next
    line feed, or the rest of the input; nothing at end of input. *)
Fixpoint split_line (s : string) : string * string :=
  match s with
  | EmptyString => (EmptyString, EmptyString)
  | String c r =>
      if Ascii.eqb c nl then (chr c, r)
      else let '(l, rest) := split_line r in (String c l, rest)
  end.

(** [Stdin::read_line] into an empty [String]: the line read, or the
    [InvalidData] error when its bytes are not UTF-8 (they are consumed
    all the same); with what is left of the input. *)
Definition read_line (s : string) : result string string * string :=
  let '(l, rest) := split_line s in
  if utf8_valid l then (Ok l, rest)
  else (Err "stream did not contain valid UTF-8", rest).

(** The error of [flush] on a closed standard output ([EPIPE]). *)
Definition broken_pipe : string := "Broken pipe (os error 32)".

Inductive Step :=
| Continue (st : Repl)
| Break (st : Repl)
| Fail (st : Repl) (e : Error).

(** One iteration of the [loop]. [print!] only fills the buffer of the
    line-buffered standard output; the [flush] that follows fails when
    standard output is closed, and its [?] ends [main]. *)
Definition repl_iter (st : Repl) : Step :=
  let out := app (stdout st) [">>> "] in
  if negb (stdout_open st) then
    Fail {| stdin := stdin st; stdout := out; stdout_open := false;
            client := client st |} (ErrIo broken_pipe)
  else
  match read_line (stdin st) with
  | (Err e, rest) =>
      Fail {| stdin := rest; stdout := out; stdout_open := true;
              client := client st |} (ErrIo e)
  | (Ok input, rest) =>
      let trimmed := trim input in
      if String.eqb trimmed "exit" || String.eqb trimmed "quit" then
        Break {| stdin := rest; stdout := app out ["Goodbye!" ++ chr nl];
                 stdout_open := true; client := client st |}
      else if String.eqb trimmed "" then
        Continue {| stdin := rest; stdout := out; stdout_open := true;
                    client := client st |}
      else
        match run_script trimmed true (client st) with
        | (cl', Ok result) =>
            Continue {| stdin := rest;
                        stdout := app out (if negb (String.eqb result "")
                                          then [result ++ chr nl] else []);
                        stdout_open := true;
                        client := cl' |}
        | (cl', Err e) =>
            Continue {| stdin := rest;
                        stdout := app out ["Error: " ++ error_display e ++ chr nl];
                        stdout_open := true;
                        client := cl' |}
        end
  end.

(** The loop, run for at most [fuel] iterations: [Some] of the final
    state and of what the arm returns, [Ok] after the [break] and the
    error of a [?], or [None] when it is still running. *)
Fixpoint repl_loop (fuel : nat) (st : Repl) : option (Repl * result unit Error) :=
  match fuel with
  | O => None
  | S f => match repl_iter st with
           | Break st' => Some (st', Ok tt)
           | Fail st' e => Some (st', Err e)
           | Continue st' => repl_loop f st'
           end
  end.

(** The loop ends on a given input when some number of iterations
    reaches its [break] or an error. *)
Definition repl_terminates (st : Repl) : Prop :=
  exists fuel res, repl_loop fuel st = Some res.

(** The first [k] lines of an input, and what follows them. *)
Fixpoint split_lines (k : nat) (s : string) : list string * string :=
  match k with
  | O => ([], s)
  | S k' => let '(l, r) := split_line s in
            let '(ls, rest) := split_lines k' r in (l :: ls, rest)
  end.

(** The lines on which the loop calls [run_script]. *)
Definition runs_line (l : string) : bool :=
  negb (String.eqb (trim l) "") && negb (String.eqb (trim l) "exit")
  && negb (String.eqb (trim l) "quit").

(** ** The [exec] and [demo] arms and [main] (lines 103-190) *)

(** The [exec] arm (lines 125-129). *)
Definition exec_arm (script : string) (blocking : bool) (cl : ToolClient)
  : ToolClient * list string * result unit Error :=
  let out := ["Executing Python script..." ++ chr nl ++ chr nl] in
  match run_script script blocking cl with
  | (cl', Ok result) => (cl', app out ["Output:" ++ chr nl ++ result ++ chr nl], Ok tt)
  | (cl', Err e) => (cl', out, Err e)
  end.

(** The three scripts of the [demo] arm. *)
Definition demo_script1 : string :=
  "print(" ++ chr dq ++ "Hello from Rust!" ++ chr dq ++ ")".
Definition demo_script2 : string :=
  "print(f" ++ chr dq ++ "42 + 58 = {42 + 58}" ++ chr dq ++ ")".
Definition demo_script3 : string :=
  chr nl ++ "import sys" ++ chr nl ++ "import platform" ++ chr nl
  ++ "print(f" ++ chr dq ++ "Python {sys.version.split()[0]}" ++ chr dq ++ ")" ++ chr nl
  ++ "print(f" ++ chr dq ++ "Platform: {platform.platform()}" ++ chr dq ++ ")" ++ chr nl.

(** [println!("✓ {}\n", result)], with the check mark as the source
    spells it. *)
Definition demo_result_line (result : string) : string :=
  "âœ“ " ++ result ++ chr nl ++ chr nl.

(** The [demo] arm (lines 164-186): each [run_script(..)?] ends the arm
    on its error. *)
Definition demo_arm (cl : ToolClient) : ToolClient * list string * result unit Error :=
  let out0 := ["=== Lab Tools Demo ===" ++ chr nl ++ chr nl;
               "--- Test 1: Simple Print ---" ++ chr nl] in
  match run_script demo_script1 true cl with
  | (cl1, Err e) => (cl1, out0, Err e)
  | (cl1, Ok r1) =>
      let out1 := app out0 [demo_result_line r1; "--- Test 2: Calculation ---" ++ chr nl] in
      match run_script demo_script2 true cl1 with
      | (cl2, Err e) => (cl2, out1, Err e)
      | (cl2, Ok r2) =>
          let out2 := app out1 [demo_result_line r2; "--- Test 3: System Info ---" ++ chr nl] in
          match run_script demo_script3 true cl2 with
          | (cl3, Err e) => (cl3, out2, Err e)
          | (cl3, Ok r3) =>
              (cl3, app out2 [demo_result_line r3; "ðŸŽ‰ All tests passed!" ++ chr nl], Ok tt)
          end
      end
  end.

(** The scripts of the [demo] arm, in order. *)
Definition demo_scripts : list string := [demo_script1; demo_script2; demo_script3].

(** Running scripts one after the other with [blocking = true], each
    call's error ending the run ([run_script(..).await?]). *)
Fixpoint run_scripts (scripts : list string) : M (list string) :=
  match scripts with
  | [] => ret []
  | s :: ss => r <- run_script s true ;; rs <- run_scripts ss ;; ret (r :: rs)
  end.

(** The banner the [repl] arm prints before its loop. *)
Definition repl_banner : list string :=
  ["=== Interactive Python REPL ===" ++ chr nl;
   "Type Python code and press Enter. Type 'exit' or Ctrl+C to quit." ++ chr nl ++ chr nl].

(** [main] after [Cli::parse], with a standard output that accepts every
    write: connect, then run the subcommand. The result carries the
    requests sent, what was printed, and what [main] returns; [None] when
    the [repl] loop is still running after [fuel] iterations. *)
Definition main_run (fuel : nat) (cli : Cli) (input : string)
  : option (list Rpc * list string * result unit Error) :=
  match new (server cli) with
  | Err e => Some ([], [], Err e)
  | Ok client0 =>
      match command cli with
      | Commands.Status =>
          let '(cl, out, r) := status_arm client0 in Some (sent cl, out, r)
      | Commands.Exec script blocking =>
          let '(cl, out, r) := exec_arm script blocking client0 in Some (sent cl, out, r)
      | Commands.Repl =>
          match repl_loop fuel {| stdin := input; stdout := repl_banner;
                                  stdout_open := true; client := client0 |} with
          | Some (st, r) => Some (sent (client st), stdout st, r)
          | None => None
          end
      | Commands.Demo =>
          let '(cl, out, r) := demo_arm client0 in Some (sent cl, out, r)
      end
  end.

(** Inputs whose lines are all read successfully (they are UTF-8) and
    none of which is the word [exit] or [quit] once trimmed; the end of
    input counts as such an input. *)
Inductive no_exit_line : string -> Prop :=
| no_exit_eof : no_exit_line EmptyString
| no_exit_next (s l r : string) :
    s <> EmptyString -> read_line s = (Ok l, r) ->
    trim l <> "exit" -> trim l <> "quit" ->
    no_exit_line r -> no_exit_line s.

(** ** Properties *)

Lemma append_assoc_s (a b c : string) : (a ++ b) ++ c = a ++ b ++ c.
Proof. induction a as [|x a IH]; simpl; [reflexivity | now rewrite IH]. Qed.

Lemma append_nil_s (a : string) : a ++ EmptyString = a.
Proof. induction a as [|x a IH]; simpl; [reflexivity | now rewrite IH]. Qed.

Lemma prefix_append (n t : string) : String.prefix n (n ++ t) = true.
Proof.
  induction n as [|x n IH]; simpl; [now destruct t|].
  destruct (ascii_dec x x) as [_|Hx]; [exact IH | now contradiction Hx].
Qed.

Lemma contains_append_l (a h n : string) :
  contains h n = true -> contains (a ++ h) n = true.
Proof.
  intros H; induction a as [|x a IH]; [exact H|].
  cbn [contains append].
  destruct (String.prefix _ _); [reflexivity | exact IH].
Qed.

Lemma contains_middle (a n b : string) : contains (a ++ n ++ b) n = true.
Proof.
  apply contains_append_l.
  destruct n as [|x n]; simpl.
  - destruct b; reflexivity.
  - destruct (ascii_dec x x) as [_|Hx]; [|now contradiction Hx].
    now rewrite prefix_append.
Qed.

Lemma contains_suffix (a n : string) : contains (a ++ n) n = true.
Proof.
  rewrite <- (append_nil_s n) at 1; apply contains_middle.
Qed.

Lemma of_byte_byte (a : ascii) : of_byte (byte a) = a.
Proof. unfold of_byte, byte; rewrite N2Z.id; apply ascii_N_embedding. Qed.

(** [Debug] leaves a printable ASCII character other than the double
    quote and the backslash as it is. *)
Lemma char_escape_debug_plain (p g : Z -> bool) (a : ascii) :
  (32 <= byte a <= 126)%Z -> byte a <> 34%Z -> byte a <> 92%Z ->
  char_escape_debug p g (byte a) = chr a.
Proof.
  intros Hr H34 H92; unfold char_escape_debug.
  destruct (Z.eqb_spec (byte a) 0); [lia|].
  destruct (Z.eqb_spec (byte a) 9); [lia|].
  destruct (Z.eqb_spec (byte a) 13); [lia|].
  destruct (Z.eqb_spec (byte a) 10); [lia|].
  destruct (Z.eqb_spec (byte a) 92); [lia|].
  destruct (Z.eqb_spec (byte a) 34); [lia|].
  rewrite (proj2 (Z.ltb_lt (byte a) 128)) by lia.
  rewrite (proj2 (Z.leb_le 32 (byte a))), (proj2 (Z.ltb_lt (byte a) 127)) by lia.
  cbn [andb]; unfold utf8_encode_char.
  rewrite (proj2 (Z.ltb_lt (byte a) 128)) by lia.
  rewrite of_byte_byte; reflexivity.
Qed.

(** Text made of printable ASCII other than the double quote and the
    backslash is its own escape, whatever the Unicode tables. *)
Lemma plain_ascii_escape (p g : Z -> bool) (m : string) :
  plain_ascii m = true -> escape_debug p g m = m.
Proof.
  unfold escape_debug; induction m as [|a r IH]; intros H; [reflexivity|].
  cbn [plain_ascii] in H; unfold in_range in H.
  apply andb_true_iff in H as [H Hr]; apply andb_true_iff in H as [H H92].
  apply andb_true_iff in H as [H H34]; apply andb_true_iff in H as [H32 H126].
  apply Z.leb_le in H32, H126; apply negb_true_iff, Z.eqb_neq in H34, H92.
  specialize (IH Hr).
  cbn [utf8_decode]; rewrite (proj2 (Z.ltb_lt (byte a) 128)) by lia.
  destruct (utf8_decode r) as [cs|]; cbn [option_map]; [|reflexivity].
  cbn [escape_chars]; rewrite IH, char_escape_debug_plain by lia; reflexivity.
Qed.

(** The reply of the single [execute_command] call of [run_script]
    decides its result. *)
Lemma run_script_reply (script : string) (blocking : bool) (cl : ToolClient)
      (s' : Srv) (reply : CommandReply) :
  execute_command_rpc (srv cl) (run_script_command script blocking) = (s', Ok reply) ->
  snd (run_script script blocking cl) =
    if negb (Z.eqb (response reply) 1)
    then Err (ErrMsg (failure_message reply))
    else Ok (script_output reply).
Proof.
  intros Hrpc; unfold run_script, bind, execute_command.
  rewrite Hrpc; simpl.
  destruct (negb (Z.eqb (response reply) 1)); reflexivity.
Qed.

(** C1: on a successful reply whose metadata maps ["response"] to a value
    of some kind, [run_script] returns: a string unchanged, a number as
    Rust's [Display] of the [f64], a boolean as ["true"]/["false"], a null
    as ["null"], and a struct or list as the [Debug] dump of the kind. *)
Theorem run_script_response_kind (script : string) (blocking : bool)
      (cl : ToolClient) (s' : Srv) (reply : CommandReply)
      (fields : list (string * Value)) (k : Kind) :
  execute_command_rpc (srv cl) (run_script_command script blocking) = (s', Ok reply) ->
  response reply = 1%Z ->
  meta_data reply = Some (mkStruct fields) ->
  fields_get "response" fields = Some (mkValue (Some k)) ->
  snd (run_script script blocking cl) =
    Ok (match k with
        | StringValue s => s
        | NumberValue n => f64_display n
        | BoolValue b => if b then "true" else "false"
        | NullValue _ => "null"
        | StructValue _ | ListValue _ => kind_debug k
        end).
Proof.
  intros Hrpc Hresp Hmd Hget.
  rewrite (run_script_reply _ _ _ _ _ Hrpc), Hresp; simpl.
  unfold script_output; rewrite Hmd; simpl; rewrite Hget; simpl.
  destruct k; reflexivity.
Qed.

(** C2 (amended): on a reply whose code is not 1, [run_script] fails
    with the message
    [Script execution failed. Code: <code>, Error: <message:?>]: the
    code in decimal, then the [Debug] form of the optional message,
    [None] when it is absent and [Some("...")] with the message escaped
    as [impl Debug for str] does when it is present. The message text
    itself appears in the diagnostic whenever escaping leaves it
    unchanged, in particular whenever it is made of printable ASCII
    characters other than the double quote and the backslash. *)
Theorem run_script_failure_diagnostic (script : string) (blocking : bool)
      (cl : ToolClient) (s' : Srv) (reply : CommandReply) :
  execute_command_rpc (srv cl) (run_script_command script blocking) = (s', Ok reply) ->
  response reply <> 1%Z ->
  snd (run_script script blocking cl) =
    Err (ErrMsg ("Script execution failed. Code: " ++ int_display (response reply)
                 ++ ", Error: "
                 ++ option_string_debug is_printable is_grapheme_extended
                      (error_message reply)))
  /\ contains (failure_message reply) (int_display (response reply)) = true
  /\ (error_message reply = None ->
      contains (failure_message reply) "None" = true)
  /\ (forall m, error_message reply = Some m ->
      escape_debug is_printable is_grapheme_extended m = m ->
      contains (failure_message reply) m = true)
  /\ (forall m, error_message reply = Some m -> plain_ascii m = true ->
      contains (failure_message reply) m = true).
Proof.
  intros Hrpc Hresp.
  rewrite (run_script_reply _ _ _ _ _ Hrpc).
  apply Z.eqb_neq in Hresp; rewrite Hresp; cbn [negb].
  split; [reflexivity|].
  assert (Hverb : forall m, error_message reply = Some m ->
                  escape_debug is_printable is_grapheme_extended m = m ->
                  contains (failure_message reply) m = true).
  { intros m Hem Hesc; unfold failure_message; rewrite Hem.
    unfold option_string_debug, str_debug.
    rewrite Hesc, !append_assoc_s.
    do 4 apply contains_append_l; apply contains_middle. }
  unfold failure_message at 1; split; [|split; [|split]].
  - apply contains_middle.
  - intros Hem; unfold failure_message; rewrite Hem; unfold option_string_debug.
    do 3 apply contains_append_l; reflexivity.
  - exact Hverb.
  - intros m Hem Hp; apply Hverb; [exact Hem | apply plain_ascii_escape; exact Hp].
Qed.

(** C3: on a reply with code 1 whose metadata is absent, or has no
    ["response"] key, [run_script] succeeds with the fixed placeholder. *)
Theorem run_script_absent_response (script : string) (blocking : bool)
      (cl : ToolClient) (s' : Srv) (reply : CommandReply) :
  execute_command_rpc (srv cl) (run_script_command script blocking) = (s', Ok reply) ->
  response reply = 1%Z ->
  (meta_data reply = None \/
   exists fields, meta_data reply = Some (mkStruct fields) /\
                  fields_get "response" fields = None) ->
  snd (run_script script blocking cl) = Ok "Script executed (no output)".
Proof.
  intros Hrpc Hresp Hmd.
  rewrite (run_script_reply _ _ _ _ _ Hrpc), Hresp; simpl.
  unfold script_output.
  destruct Hmd as [Hmd | [fields [Hmd Hget]]]; rewrite Hmd; [reflexivity|].
  simpl; rewrite Hget; reflexivity.
Qed.

(** Every call of [run_script] sends exactly one request, the envelope
    built from its two arguments. *)
Lemma run_script_sent (script : string) (blocking : bool) (cl : ToolClient) :
  sent (fst (run_script script blocking cl)) =
    app (sent cl) [RpcExecute (run_script_command script blocking)].
Proof.
  unfold run_script, bind, execute_command.
  destruct (execute_command_rpc (srv cl) (run_script_command script blocking))
    as [s' [reply | st]]; simpl; [|reflexivity].
  destruct (negb (Z.eqb (response reply) 1)); reflexivity.
Qed.

(** C6: the envelope [run_script] sends depends on [script] and
    [blocking] only: from any two client states, the same inputs send
    the same envelope. *)
Theorem run_script_envelope_deterministic (script : string) (blocking : bool)
      (cl1 cl2 : ToolClient) :
  exists c : Command,
    sent (fst (run_script script blocking cl1)) = app (sent cl1) [RpcExecute c] /\
    sent (fst (run_script script blocking cl2)) = app (sent cl2) [RpcExecute c].
Proof.
  exists (run_script_command script blocking).
  split; apply run_script_sent.
Qed.

(** C9: on a reply with code 1 whose ["response"] value has no kind,
    [run_script] succeeds with the placeholder, as for a missing key. *)
Theorem run_script_kindless_response (script : string) (blocking : bool)
      (cl : ToolClient) (s' : Srv) (reply : CommandReply)
      (fields : list (string * Value)) :
  execute_command_rpc (srv cl) (run_script_command script blocking) = (s', Ok reply) ->
  response reply = 1%Z ->
  meta_data reply = Some (mkStruct fields) ->
  fields_get "response" fields = Some (mkValue None) ->
  snd (run_script script blocking cl) = Ok "Script executed (no output)".
Proof.
  intros Hrpc Hresp Hmd Hget.
  rewrite (run_script_reply _ _ _ _ _ Hrpc), Hresp; simpl.
  unfold script_output; rewrite Hmd; simpl; rewrite Hget; reflexivity.
Qed.

(** An iteration that has flushed its prompt and read a line goes on
    with the trimmed line. *)
Lemma repl_iter_ok (st : Repl) (line rest : string) :
  stdout_open st = true -> read_line (stdin st) = (Ok line, rest) ->
  repl_iter st =
    if String.eqb (trim line) "exit" || String.eqb (trim line) "quit" then
      Break {| stdin := rest; stdout := app (app (stdout st) [">>> "]) ["Goodbye!" ++ chr nl];
               stdout_open := true; client := client st |}
    else if String.eqb (trim line) "" then
      Continue {| stdin := rest; stdout := app (stdout st) [">>> "];
                  stdout_open := true; client := client st |}
    else
      match run_script (trim line) true (client st) with
      | (cl', Ok result) =>
          Continue {| stdin := rest;
                      stdout := app (app (stdout st) [">>> "])
                                  (if negb (String.eqb result "") then [result ++ chr nl] else []);
                      stdout_open := true; client := cl' |}
      | (cl', Err e) =>
          Continue {| stdin := rest;
                      stdout := app (app (stdout st) [">>> "])
                                  ["Error: " ++ error_display e ++ chr nl];
                      stdout_open := true; client := cl' |}
      end.
Proof.
  intros Ho Hr; unfold repl_iter; rewrite Ho, Hr; reflexivity.
Qed.

(** C4 (amended): in the REPL, with the prompt flushed, a line that is
    not UTF-8 ends the loop with the read error. A line read is trimmed
    of Unicode white space first: [exit] or [quit] ends the loop with
    ["Goodbye!"], an empty line is skipped without any request, and any
    other trimmed line is run by [run_script] with [blocking = true];
    the iteration prints the output and a line feed when the output is
    non-empty (nothing when it is empty), or ["Error: "] and the error's
    message, and continues with the rest of the input. *)
Theorem repl_iter_runs_trimmed_line (st : Repl) :
  stdout_open st = true ->
  (forall e rest, read_line (stdin st) = (Err e, rest) ->
     repl_iter st = Fail {| stdin := rest; stdout := app (stdout st) [">>> "];
                            stdout_open := true; client := client st |} (ErrIo e))
  /\ (forall line rest, read_line (stdin st) = (Ok line, rest) ->
     (trim line = "exit" \/ trim line = "quit" ->
        repl_iter st =
          Break {| stdin := rest; stdout := app (stdout st) [">>> "; "Goodbye!" ++ chr nl];
                   stdout_open := true; client := client st |})
     /\ (trim line = "" ->
        repl_iter st =
          Continue {| stdin := rest; stdout := app (stdout st) [">>> "];
                      stdout_open := true; client := client st |})
     /\ (trim line <> "exit" -> trim line <> "quit" -> trim line <> "" ->
        repl_iter st =
          Continue {| stdin := rest;
                      stdout := app (app (stdout st) [">>> "])
                        (match snd (run_script (trim line) true (client st)) with
                         | Ok r => if String.eqb r "" then [] else [r ++ chr nl]
                         | Err e => ["Error: " ++ error_display e ++ chr nl]
                         end);
                      stdout_open := true;
                      client := fst (run_script (trim line) true (client st)) |}
        /\ sent (fst (run_script (trim line) true (client st))) =
             app (sent (client st)) [RpcExecute (run_script_command (trim line) true)])).
Proof.
  intros Ho; split.
  - intros e rest Hr; unfold repl_iter; rewrite Ho, Hr; reflexivity.
  - intros line rest Hr; rewrite (repl_iter_ok st line rest Ho Hr).
    split; [|split].
    + intros [H | H]; rewrite H; cbn; rewrite <- app_assoc; reflexivity.
    + intros H; rewrite H; reflexivity.
    + intros Hexit Hquit Hempty; split; [|apply run_script_sent].
      apply String.eqb_neq in Hexit, Hquit, Hempty.
      rewrite Hexit, Hquit, Hempty; cbn [orb].
      destruct (run_script (trim line) true (client st)) as [cl' [r | e]];
        cbn [fst snd]; [|reflexivity].
      destruct (String.eqb r ""); reflexivity.
Qed.

Lemma read_line_eof : read_line EmptyString = (Ok EmptyString, EmptyString).
Proof. reflexivity. Qed.

(** On an input none of whose lines is [exit] or [quit], with standard
    output open, no number of iterations reaches the [break] or an
    error. *)
Lemma repl_loop_no_exit (fuel : nat) (st : Repl) :
  stdout_open st = true -> no_exit_line (stdin st) -> repl_loop fuel st = None.
Proof.
  revert st; induction fuel as [|fuel IH]; intros st Ho H; [reflexivity|].
  cbn [repl_loop].
  inversion H as [Heof | s l r Hne Hread Hexit Hquit Hrest].
  - rewrite (repl_iter_ok st EmptyString EmptyString Ho)
      by (rewrite <- Heof; reflexivity).
    cbn; apply IH; [reflexivity | exact no_exit_eof].
  - rewrite (repl_iter_ok st l r Ho Hread).
    apply String.eqb_neq in Hexit, Hquit; rewrite Hexit, Hquit; cbn [orb].
    destruct (String.eqb (trim l) "").
    + apply IH; [reflexivity | exact Hrest].
    + destruct (run_script (trim l) true (client st)) as [cl' [res | e]];
        (apply IH; [reflexivity | exact Hrest]).
Qed.

(** C5 (the loop does not end at end of input): [read_line] at end of
    input yields the empty line, which the loop skips with [continue];
    so, standard output accepting the prompts, on an input whose lines
    are all UTF-8 and none [exit] or [quit], in particular on the empty
    input, the loop runs forever. *)
Theorem repl_no_exit_never_terminates (st : Repl) :
  stdout_open st = true -> no_exit_line (stdin st) -> ~ repl_terminates st.
Proof.
  intros Ho H [fuel [res Hloop]].
  rewrite (repl_loop_no_exit fuel st Ho H) in Hloop; discriminate.
Qed.

(** C7: a first line [exit] ends the loop in that iteration with the
    client untouched, so no request is sent: with [Goodbye!] when the
    prompt can be flushed, with the flush error otherwise. *)
Theorem repl_exit_line_no_rpc (cl : ToolClient) (out : list string)
      (rest : string) (fuel : nat) (open : bool) :
  exists st' r,
    repl_loop (S fuel) {| stdin := "exit" ++ String nl rest; stdout := out;
                          stdout_open := open; client := cl |} = Some (st', r)
    /\ client st' = cl
    /\ (open = true ->
        st' = {| stdin := rest; stdout := app out [">>> "; "Goodbye!" ++ chr nl];
                 stdout_open := true; client := cl |} /\ r = Ok tt).
Proof.
  destruct open; cbn [repl_loop]; unfold repl_iter; cbn.
  - do 2 eexists; split; [reflexivity|]; split; [reflexivity|].
    intros _; rewrite <- app_assoc; split; reflexivity.
  - do 2 eexists; split; [reflexivity|]; split; [reflexivity | discriminate].
Qed.

(** C8: when the channel cannot be opened, [ToolClient::new] fails with
    the context ["Failed to connect to <address>"], which names the
    address, over the transport error. *)
Theorem new_connect_failure (address : string) (e : TransportError) :
  connect address = Err e ->
  new address = Err (ErrContext ("Failed to connect to " ++ address) (ErrTransport e))
  /\ error_display (ErrContext ("Failed to connect to " ++ address) (ErrTransport e))
     = "Failed to connect to " ++ address
  /\ contains (error_display (ErrContext ("Failed to connect to " ++ address)
                                         (ErrTransport e))) address = true.
Proof.
  intros Hc; unfold new; rewrite Hc.
  split; [reflexivity | split; [reflexivity|]].
  apply contains_suffix.
Qed.

(** C10: the status arm prints an empty error message exactly as an
    absent one, and prints an error line iff the message is present and
    non-empty. *)
Theorem status_error_line (s u : Z) (em : option string) :
  status_lines {| status := s; uptime := u; status_error_message := Some "" |}
  = status_lines {| status := s; uptime := u; status_error_message := None |}
  /\ ((exists m, In ("  Error: " ++ m ++ chr nl)
                   (status_lines {| status := s; uptime := u;
                                    status_error_message := em |}))
      <-> (exists m, em = Some m /\ m <> "")).
Proof.
  split; [reflexivity|].
  unfold status_lines; cbn [status_error_message status uptime].
  split.
  - intros [m' Hin]; apply in_app_or in Hin.
    destruct Hin as [Hin | Hin].
    + simpl in Hin; destruct Hin as [Hin | [Hin | [Hin | []]]]; discriminate.
    + destruct em as [m|]; [|destruct Hin].
      destruct (String.eqb m "") eqn:E; cbn [negb] in Hin; [destruct Hin|].
      exists m; split; [reflexivity|].
      now apply String.eqb_neq.
  - intros [m [-> Hne]]; exists m.
    apply String.eqb_neq in Hne; rewrite Hne; cbn [negb].
    apply in_or_app; right; left; reflexivity.
Qed.

(** ** Further properties of the client *)

(** [run_script] fails exactly when its request fails at the transport
    level or the reply's code is not 1. *)
Theorem run_script_fails_iff (script : string) (blocking : bool) (cl : ToolClient) :
  (exists e, snd (run_script script blocking cl) = Err e) <->
  match snd (execute_command_rpc (srv cl) (run_script_command script blocking)) with
  | Err _ => True
  | Ok reply => response reply <> 1%Z
  end.
Proof.
  unfold run_script, bind, execute_command.
  destruct (execute_command_rpc (srv cl) (run_script_command script blocking))
    as [s' [reply | st]]; cbn [snd].
  - destruct (Z.eqb_spec (response reply) 1) as [E | E]; cbn.
    + split; [intros [e H]; discriminate | intros H; contradiction].
    + split; [intros _; exact E | intros _; eexists; reflexivity].
  - split; [intros _; exact I | intros _; eexists; reflexivity].
Qed.

(** A transport failure of the request is returned as it is, after
    exactly one request: [run_script] does not retry. *)
Theorem run_script_transport_error (script : string) (blocking : bool)
      (cl : ToolClient) (s' : Srv) (st : Status) :
  execute_command_rpc (srv cl) (run_script_command script blocking) = (s', Err st) ->
  run_script script blocking cl =
    ({| srv := s'; sent := app (sent cl) [RpcExecute (run_script_command script blocking)] |},
     Err (ErrRpc st)).
Proof.
  intros Hrpc; unfold run_script, bind, execute_command; rewrite Hrpc; reflexivity.
Qed.

(** The envelope carries the script and the flag as they are: different
    inputs give different envelopes. *)
Theorem run_script_command_injective (s1 s2 : string) (b1 b2 : bool) :
  run_script_command s1 b1 = run_script_command s2 b2 -> s1 = s2 /\ b1 = b2.
Proof.
  unfold run_script_command; intros H; injection H as Hs Hb; split; assumption.
Qed.

(** The [status] arm sends exactly one request, [get_status]. When it
    succeeds the arm prints the header and the reply's lines; when it
    fails the arm prints only the header and returns the RPC status as
    it is. *)
Theorem status_arm_get_status (cl : ToolClient) :
  let '(cl', out, r) := status_arm cl in
  cl' = {| srv := fst (get_status_rpc (srv cl)); sent := app (sent cl) [RpcGetStatus] |}
  /\ match snd (get_status_rpc (srv cl)) with
     | Ok rep => out = ("Checking server status..." ++ chr nl) :: status_lines rep
                 /\ r = Ok tt
     | Err st => out = ["Checking server status..." ++ chr nl] /\ r = Err (ErrRpc st)
     end.
Proof.
  unfold status_arm, get_status.
  destruct (get_status_rpc (srv cl)) as [s' [rep | st]]; cbn;
    (split; [reflexivity | split; reflexivity]).
Qed.

(** When the connection cannot be opened, [main] runs no subcommand: it
    sends nothing, prints nothing and returns the connection error with
    the address as context, whatever the subcommand. *)
Theorem main_connect_failure (fuel : nat) (cli : Cli) (input : string)
      (e : TransportError) :
  connect (server cli) = Err e ->
  main_run fuel cli input =
    Some ([], [], Err (ErrContext ("Failed to connect to " ++ server cli) (ErrTransport e))).
Proof.
  intros Hc; unfold main_run, new; rewrite Hc; reflexivity.
Qed.

(** [exec] sends exactly one request, the envelope for the given script
    and the given [--blocking] flag; it succeeds, printing the output,
    exactly when [run_script] does, and otherwise returns its error. *)
Theorem main_exec (fuel : nat) (address script : string) (blocking : bool)
      (input : string) (s0 : Srv) :
  connect address = Ok s0 ->
  exists out r,
    main_run fuel {| server := address; command := Commands.Exec script blocking |} input
    = Some ([RpcExecute (run_script_command script blocking)], out, r)
    /\ match snd (run_script script blocking {| srv := s0; sent := [] |}) with
       | Ok res => out = ["Executing Python script..." ++ chr nl ++ chr nl;
                          "Output:" ++ chr nl ++ res ++ chr nl] /\ r = Ok tt
       | Err e => out = ["Executing Python script..." ++ chr nl ++ chr nl] /\ r = Err e
       end.
Proof.
  intros Hc; unfold main_run; cbn [server command]; unfold new; rewrite Hc.
  unfold exec_arm.
  pose proof (run_script_sent script blocking {| srv := s0; sent := [] |}) as Hs.
  destruct (run_script script blocking {| srv := s0; sent := [] |}) as [cl' [res | e]];
    cbn [fst snd] in *; rewrite Hs; do 2 eexists; split; try reflexivity; split; reflexivity.
Qed.

Lemma run_scripts_nil (cl : ToolClient) : run_scripts [] cl = (cl, Ok []).
Proof. reflexivity. Qed.

Lemma run_scripts_cons (s : string) (ss : list string) (cl : ToolClient) :
  run_scripts (s :: ss) cl =
    match run_script s true cl with
    | (cl1, Ok r) => match run_scripts ss cl1 with
                     | (cl2, Ok rs) => (cl2, Ok (r :: rs))
                     | (cl2, Err e) => (cl2, Err e)
                     end
    | (cl1, Err e) => (cl1, Err e)
    end.
Proof. reflexivity. Qed.

(** The [demo] arm stops at its first failing script. When the scripts
    before the [i]-th ran successfully and the [i]-th fails, the arm
    returns that error, in the client state that call left, having sent
    exactly the [i + 1] envelopes of the scripts run, each with
    [blocking = true]. When all three succeed, it succeeds after sending
    the three envelopes. *)
Theorem demo_arm_stops_at_first_failure (cl : ToolClient) :
  let '(cl', _, r) := demo_arm cl in
  (forall i cl1 e, i < 3 ->
     (exists rs, snd (run_scripts (firstn i demo_scripts) cl) = Ok rs) ->
     run_script (nth i demo_scripts EmptyString) true
                (fst (run_scripts (firstn i demo_scripts) cl)) = (cl1, Err e) ->
     cl' = cl1 /\ r = Err e
     /\ sent cl' = app (sent cl) (map (fun s => RpcExecute (run_script_command s true))
                                      (firstn (S i) demo_scripts)))
  /\ (forall rs, snd (run_scripts demo_scripts cl) = Ok rs ->
      cl' = fst (run_scripts demo_scripts cl) /\ r = Ok tt
      /\ sent cl' = app (sent cl) (map (fun s => RpcExecute (run_script_command s true))
                                       demo_scripts)).
Proof.
  unfold demo_arm, demo_scripts.
  pose proof (run_script_sent demo_script1 true cl) as S1.
  destruct (run_script demo_script1 true cl) as [cl1 [r1 | e1]] eqn:E1;
    cbn [fst] in S1.
  2:{ split.
      - intros i c e Hi [rs Hrs] Hrun.
        destruct i as [|[|[|i]]]; [| | |lia];
          cbn [firstn nth] in Hrs, Hrun |- *;
          repeat progress (rewrite ?run_scripts_cons, ?run_scripts_nil, ?E1 in Hrs; rewrite ?run_scripts_cons, ?run_scripts_nil, ?E1 in Hrun;
                           cbn [fst snd] in Hrs, Hrun);
          try discriminate.
        injection Hrun as <- <-.
        cbn [map]; split; [reflexivity | split; [reflexivity | exact S1]].
      - intros rs Hrs; rewrite run_scripts_cons, E1 in Hrs; discriminate. }
  pose proof (run_script_sent demo_script2 true cl1) as S2.
  destruct (run_script demo_script2 true cl1) as [cl2 [r2 | e2]] eqn:E2;
    cbn [fst] in S2.
  2:{ split.
      - intros i c e Hi [rs Hrs] Hrun.
        destruct i as [|[|[|i]]]; [| | |lia];
          cbn [firstn nth] in Hrs, Hrun |- *;
          repeat progress (rewrite ?run_scripts_cons, ?run_scripts_nil, ?E1, ?E2 in Hrs; rewrite ?run_scripts_cons, ?run_scripts_nil, ?E1, ?E2 in Hrun;
                           cbn [fst snd] in Hrs, Hrun);
          try discriminate.
        injection Hrun as <- <-.
          cbn [map]; split; [reflexivity | split; [reflexivity|]].
          rewrite S2, S1, <- app_assoc; reflexivity.
      - intros rs Hrs.
        repeat progress (rewrite ?run_scripts_cons, ?run_scripts_nil, ?E1, ?E2 in Hrs;
                         cbn [fst snd] in Hrs).
        discriminate. }
  pose proof (run_script_sent demo_script3 true cl2) as S3.
  destruct (run_script demo_script3 true cl2) as [cl3 [r3 | e3]] eqn:E3;
    cbn [fst] in S3.
  - split.
    + intros i c e Hi [rs Hrs] Hrun.
      destruct i as [|[|[|i]]]; [| | |lia];
        cbn [firstn nth] in Hrs, Hrun |- *;
        repeat progress (rewrite ?run_scripts_cons, ?run_scripts_nil, ?E1, ?E2, ?E3 in Hrs; rewrite ?run_scripts_cons, ?run_scripts_nil, ?E1, ?E2, ?E3 in Hrun;
                         cbn [fst snd] in Hrs, Hrun);
        discriminate.
    + intros rs _.
      repeat progress (rewrite ?run_scripts_cons, ?run_scripts_nil, ?E1, ?E2, ?E3;
                       cbn [fst snd]).
      split; [reflexivity | split; [reflexivity|]].
      rewrite S3, S2, S1, <- !app_assoc; reflexivity.
  - split.
    + intros i c e Hi [rs Hrs] Hrun.
      destruct i as [|[|[|i]]]; [| | |lia];
        cbn [firstn nth] in Hrs, Hrun |- *;
        repeat progress (rewrite ?run_scripts_cons, ?run_scripts_nil, ?E1, ?E2, ?E3 in Hrs; rewrite ?run_scripts_cons, ?run_scripts_nil, ?E1, ?E2, ?E3 in Hrun;
                         cbn [fst snd] in Hrs, Hrun);
        try discriminate.
      injection Hrun as <- <-.
      cbn [map]; split; [reflexivity | split; [reflexivity|]].
      rewrite S3, S2, S1, <- !app_assoc; reflexivity.
    + intros rs Hrs.
      repeat progress (rewrite ?run_scripts_cons, ?run_scripts_nil, ?E1, ?E2, ?E3 in Hrs;
                       cbn [fst snd] in Hrs).
      discriminate.
Qed.

(** [split_line] splits the input: the line read followed by what is
    left is the input. *)
Lemma split_line_app (s : string) :
  let '(line, rest) := split_line s in s = line ++ rest.
Proof.
  induction s as [|c r IH]; [reflexivity|].
  cbn [split_line].
  destruct (Ascii.eqb c nl); [reflexivity|].
  destruct (split_line r) as [l rest]; cbn; rewrite IH; reflexivity.
Qed.

(** One iteration that does not fail has read the next line, a UTF-8
    one, and sent the envelope of its trimmed text when it runs it, and
    nothing otherwise. *)
Lemma repl_iter_requests (st : Repl) :
  match repl_iter st with
  | Continue st' | Break st' =>
      let '(l, rest) := split_line (stdin st) in
      stdin st' = rest /\ utf8_valid l = true /\
      sent (client st') =
        app (sent (client st))
            (if runs_line l then [RpcExecute (run_script_command (trim l) true)] else [])
  | Fail _ _ => True
  end.
Proof.
  destruct (stdout_open st) eqn:Ho.
  2:{ unfold repl_iter; rewrite Ho; exact I. }
  destruct (read_line (stdin st)) as [[l | e] rest] eqn:Hr.
  2:{ unfold repl_iter; rewrite Ho, Hr; exact I. }
  rewrite (repl_iter_ok st l rest Ho Hr).
  unfold read_line in Hr.
  destruct (split_line (stdin st)) as [l' rest'].
  destruct (utf8_valid l') eqn:Hv; [|discriminate].
  injection Hr as <- <-.
  unfold runs_line.
  destruct (String.eqb (trim l') "exit"), (String.eqb (trim l') "quit"),
           (String.eqb (trim l') ""); cbn [orb negb andb];
    try (cbn [stdin client]; rewrite app_nil_r; auto; fail).
  pose proof (run_script_sent (trim l') true (client st)) as Hs.
  destruct (run_script (trim l') true (client st)) as [cl' [res | e]];
    cbn [fst] in Hs; cbn; auto.
Qed.

(** Over a REPL session that ends with [exit] or [quit], the loop has
    read the first [k] lines of its input, all UTF-8, and left the rest;
    the requests it sent are, in order, the [blocking = true] envelopes
    of the trimmed lines it ran: the lines that are not empty, [exit] or
    [quit] once trimmed. *)
Theorem repl_loop_requests (fuel : nat) (st st' : Repl) :
  repl_loop fuel st = Some (st', Ok tt) ->
  exists k,
    let '(lines, rest) := split_lines k (stdin st) in
    stdin st' = rest
    /\ Forall (fun l => utf8_valid l = true) lines
    /\ sent (client st') =
         app (sent (client st))
             (map (fun l => RpcExecute (run_script_command (trim l) true))
                  (filter runs_line lines)).
Proof.
  revert st; induction fuel as [|fuel IH]; intros st H; [discriminate|].
  cbn [repl_loop] in H.
  pose proof (repl_iter_requests st) as Hi.
  destruct (repl_iter st) as [s1 | s1 | s1 e]; [| |discriminate].
  - destruct (IH s1 H) as [k Hk]; exists (S k); cbn [split_lines].
    destruct (split_line (stdin st)) as [l rest].
    destruct Hi as [Hs1 [Hv Hsent]]; rewrite Hs1 in Hk.
    destruct (split_lines k rest) as [ls rest'].
    destruct Hk as [Hst' [Hvs Hsent']].
    split; [exact Hst'|]; split; [constructor; assumption|].
    rewrite Hsent', Hsent; cbn [filter].
    destruct (runs_line l); cbn [map];
      [rewrite <- app_assoc | rewrite app_nil_r]; reflexivity.
  - injection H as <-; exists 1; cbn [split_lines].
    destruct (split_line (stdin st)) as [l rest].
    destruct Hi as [Hs1 [Hv Hsent]].
    split; [exact Hs1|]; split; [constructor; [exact Hv | constructor]|].
    rewrite Hsent; cbn [filter].
    destruct (runs_line l); reflexivity.
Qed.

(** With the prompt flushed, a line that trims to [exit] or [quit]
    (surrounded by any Unicode white space) ends the loop in that
    iteration, with the client untouched. *)
Theorem repl_stop_word_ends (fuel : nat) (st : Repl) (line rest : string) :
  stdout_open st = true ->
  read_line (stdin st) = (Ok line, rest) ->
  trim line = "exit" \/ trim line = "quit" ->
  repl_loop (S fuel) st =
    Some ({| stdin := rest; stdout := app (stdout st) [">>> "; "Goodbye!" ++ chr nl];
             stdout_open := true; client := client st |}, Ok tt).
Proof.
  intros Ho Hr Hw; cbn [repl_loop]; rewrite (repl_iter_ok st line rest Ho Hr).
  destruct Hw as [-> | ->]; cbn; rewrite <- app_assoc; reflexivity.
Qed.

End Client.

Arguments srv {Srv}.
Arguments sent {Srv}.
Arguments stdin {Srv}.
Arguments stdout {Srv}.
Arguments client {Srv}.
Arguments stdout_open {Srv}.
Arguments Continue {Srv}.
Arguments Break {Srv}.
Arguments Fail {Srv}.

(** ** Properties of the build script *)
Module BuildProps.
Import Build.

Lemma split_last_some (c : ascii) (s b a : string) :
  split_last c s = Some (b, a) -> s = b ++ String c a /\ has_char c a = false.
Proof.
  revert b a; induction s as [|x r IH]; intros b a H; [discriminate|].
  cbn [split_last] in H.
  destruct (split_last c r) as [[b' a']|] eqn:E.
  - injection H as <- <-; destruct (IH _ _ eq_refl) as [-> Ha]; auto.
  - destruct (Ascii.eqb_spec x c) as [-> | _]; [|discriminate].
    injection H as <- <-; split; [reflexivity|].
    clear IH; induction r as [|y r IHr]; [reflexivity|].
    cbn [split_last] in E.
    destruct (split_last c r) as [[? ?]|]; [discriminate|].
    destruct (Ascii.eqb_spec y c); [discriminate|].
    cbn; rewrite IHr by reflexivity.
    destruct (Ascii.eqb_spec y c); [contradiction | reflexivity].
Qed.

Lemma split_last_none (c : ascii) (s : string) :
  has_char c s = false -> split_last c s = None.
Proof.
  induction s as [|x r IH]; intros H; [reflexivity|].
  cbn in H |- *; apply orb_false_iff in H as [Hx Hr].
  rewrite IH by exact Hr; rewrite Hx; reflexivity.
Qed.

Lemma split_last_app (c : ascii) (b a : string) :
  has_char c a = false -> split_last c (b ++ String c a) = Some (b, a).
Proof.
  intros Ha; induction b as [|x b IH]; cbn.
  - rewrite split_last_none by exact Ha; rewrite Ascii.eqb_refl; reflexivity.
  - rewrite IH; reflexivity.
Qed.

Lemma proto_name_not_dotdot (stem : string) :
  stem <> EmptyString -> String.eqb (stem ++ ".proto") ".." = false.
Proof.
  intros Hs; apply String.eqb_neq; intros H.
  destruct stem as [|x [|y r]]; [contradiction | discriminate |].
  cbn in H; injection H as _ _ H; destruct r; discriminate.
Qed.

(** A directory entry is picked up exactly when its name is a non-empty
    stem followed by [.proto]: [x.proto] and [a.b.proto] are, a hidden
    [.proto], [x.proto.bak] and [proto] are not. *)
Theorem is_proto_entry (name : string) :
  has_char "/" name = false ->
  is_proto (grpc_interfaces_dir ++ "/" ++ name) = true <->
  exists stem, stem <> EmptyString /\ name = stem ++ ".proto".
Proof.
  intros Hslash.
  assert (Hfile : file_name (grpc_interfaces_dir ++ "/" ++ name) = name).
  { unfold file_name. change ("/" ++ name) with (String "/" name).
    rewrite split_last_app by exact Hslash; reflexivity. }
  unfold is_proto, extension; rewrite Hfile; unfold rsplit_file_at_dot.
  split.
  - destruct (String.eqb name "..") eqn:Edd; [discriminate|].
    destruct (split_last "." name) as [[before after]|] eqn:Es; [|discriminate].
    destruct (String.eqb_spec before "") as [_ | Hb]; [discriminate|].
    intros Hp; apply String.eqb_eq in Hp; subst after.
    apply split_last_some in Es as [Es _].
    exists before; split; [exact Hb | exact Es].
  - intros [stem [Hs ->]].
    rewrite proto_name_not_dotdot by exact Hs.
    change ".proto" with (String "." "proto").
    rewrite split_last_app by reflexivity.
    destruct (String.eqb_spec stem "") as [E | _]; [contradiction | reflexivity].
Qed.

Lemma scan_entries_ok (dir : string) (names : list string) (protos out : list string) :
  forallb (fun n => negb (unwrap_panics dir n)) names = true ->
  exists out',
    scan_entries dir (map Ok names) protos out =
      (out', Done (Ok (app protos (map (fun n => dir ++ "/" ++ n)
                                       (filter (fun n => is_proto (dir ++ "/" ++ n)) names))))).
Proof.
  revert protos out; induction names as [|n names IH]; intros protos out Hok.
  - exists out; cbn; rewrite app_nil_r; reflexivity.
  - cbn [forallb] in Hok; apply andb_true_iff in Hok as [Hn Hok].
    unfold unwrap_panics in Hn.
    cbn [map scan_entries filter].
    destruct (is_proto (dir ++ "/" ++ n)); cbn [andb negb] in Hn.
    + destruct (utf8_valid (dir ++ "/" ++ n)); [|discriminate].
      destruct (IH (app protos [dir ++ "/" ++ n])
                  (app out ["cargo:warning=Found proto file: " ++ (dir ++ "/" ++ n) ++ chr nl])
                  Hok) as [out' ->].
      exists out'; rewrite <- app_assoc; reflexivity.
    + exact (IH protos out Hok).
Qed.

(** On a readable [tools/grpc_interfaces] whose proto paths are UTF-8,
    the build script hands [compile] [controller.proto] when it exists
    followed by the directory's [.proto] entries in directory order, and
    returns [compile]'s result; when there is none at all it fails with
    ["No proto files found!"] without calling [compile]. *)
Theorem build_main_protos (env : Env) (names : list string) :
  path_exists env grpc_interfaces_dir = true ->
  read_dir env grpc_interfaces_dir = Ok (map Ok names) ->
  forallb (fun n => negb (unwrap_panics grpc_interfaces_dir n)) names = true ->
  let '(_, compiled, r) := build_main env in
  match expected_protos env names with
  | [] => compiled = None /\ r = Done (Err (Msg "No proto files found!"))
  | protos =>
      compiled = Some protos /\
      match compile env protos with
      | Ok _ => r = Done (Ok tt)
      | Err e => r = Done (Err (Io e))
      end
  end.
Proof.
  intros Hdir Hread Hok; unfold build_main; rewrite Hdir, Hread.
  destruct (scan_entries_ok grpc_interfaces_dir names
              (if path_exists env controller_proto then [controller_proto] else [])
              ["cargo:warning=Starting proto compilation..." ++ chr nl] Hok) as [out' ->].
  unfold expected_protos.
  destruct (app _ _) as [|p ps]; [split; reflexivity|].
  destruct (compile env (p :: ps)); split; reflexivity.
Qed.

(** The build script never calls [compile] with an empty list. *)
Theorem build_main_never_compiles_nothing (env : Env) :
  let '(_, compiled, _) := build_main env in compiled <> Some [].
Proof.
  unfold build_main.
  destruct (if path_exists env grpc_interfaces_dir then _ else _)
    as [out [[[|p ps]|e]|m]]; [discriminate | | discriminate | discriminate].
  destruct (compile env (p :: ps)); discriminate.
Qed.

(** An I/O error on an entry of the directory, after entries whose proto
    paths are UTF-8, stops the build script at that entry: [compile] is
    not called and the error is returned. *)
Theorem build_main_entry_error (env : Env) (names : list string) (e : string)
      (rest : list (result string string)) :
  path_exists env grpc_interfaces_dir = true ->
  read_dir env grpc_interfaces_dir = Ok (app (map Ok names) (Err e :: rest)) ->
  forallb (fun n => negb (unwrap_panics grpc_interfaces_dir n)) names = true ->
  let '(_, compiled, r) := build_main env in compiled = None /\ r = Done (Err (Io e)).
Proof.
  intros Hdir Hread Hok; unfold build_main; rewrite Hdir, Hread; clear Hdir Hread.
  generalize (if path_exists env controller_proto then [controller_proto] else []).
  generalize ["cargo:warning=Starting proto compilation..." ++ chr nl].
  induction names as [|n names IH]; intros out protos; [split; reflexivity|].
  cbn [forallb] in Hok; apply andb_true_iff in Hok as [Hn Hok].
  unfold unwrap_panics in Hn.
  cbn [map app scan_entries].
  destruct (is_proto (grpc_interfaces_dir ++ "/" ++ n)); cbn [andb negb] in Hn.
  - destruct (utf8_valid (grpc_interfaces_dir ++ "/" ++ n)); [|discriminate].
    apply IH; exact Hok.
  - apply IH; exact Hok.
Qed.

(** A [.proto] entry whose path is not UTF-8, after entries whose proto
    paths are, makes [path.to_str().unwrap()] panic: the build script
    stops there without calling [compile]. *)
Theorem build_main_unwrap_panic (env : Env) (names : list string) (bad : string)
      (rest : list (result string string)) :
  path_exists env grpc_interfaces_dir = true ->
  read_dir env grpc_interfaces_dir = Ok (app (map Ok names) (Ok bad :: rest)) ->
  forallb (fun n => negb (unwrap_panics grpc_interfaces_dir n)) names = true ->
  unwrap_panics grpc_interfaces_dir bad = true ->
  let '(_, compiled, r) := build_main env in compiled = None /\ r = Panic unwrap_none.
Proof.
  intros Hdir Hread Hok Hbad; unfold build_main; rewrite Hdir, Hread; clear Hdir Hread.
  generalize (if path_exists env controller_proto then [controller_proto] else []).
  generalize ["cargo:warning=Starting proto compilation..." ++ chr nl].
  induction names as [|n names IH]; intros out protos.
  - unfold unwrap_panics in Hbad; apply andb_true_iff in Hbad as [Hp Hv].
    apply negb_true_iff in Hv.
    cbn [map app scan_entries]; rewrite Hp, Hv; split; reflexivity.
  - cbn [forallb] in Hok; apply andb_true_iff in Hok as [Hn Hok].
    unfold unwrap_panics in Hn.
    cbn [map app scan_entries].
    destruct (is_proto (grpc_interfaces_dir ++ "/" ++ n)); cbn [andb negb] in Hn.
    + destruct (utf8_valid (grpc_interfaces_dir ++ "/" ++ n)); [|discriminate].
      apply IH; exact Hok.
    + apply IH; exact Hok.
Qed.

End BuildProps.

(** ** The properties on concrete runs *)

Lemma run_script_response_kind_witness :
  scripted_execute [reply_bool] (run_script_command "print(1)" true) = ([], Ok reply_bool)
  /\ snd (run_script sample_f64_display sample_kind_debug sample_is_printable
            sample_is_grapheme_extended _ scripted_execute
            "print(1)" true {| srv := [reply_bool]; sent := [] |}) = Ok "true".
Proof.
  split; [reflexivity|].
  exact (run_script_response_kind sample_f64_display sample_kind_debug sample_is_printable
           sample_is_grapheme_extended _ scripted_execute
           "print(1)" true {| srv := [reply_bool]; sent := [] |} [] reply_bool
           [("response", mkValue (Some (BoolValue true)))] (BoolValue true)
           eq_refl eq_refl eq_refl eq_refl).
Defined.

Lemma run_script_failure_diagnostic_witness :
  response reply_failed <> 1%Z
  /\ plain_ascii "tool offline" = true
  /\ contains (failure_message sample_is_printable sample_is_grapheme_extended reply_failed)
              "tool offline" = true.
Proof.
  split; [discriminate|]; split; [reflexivity|].
  refine (proj2 (proj2 (proj2 (proj2 (run_script_failure_diagnostic
            sample_f64_display sample_kind_debug sample_is_printable
            sample_is_grapheme_extended _ scripted_execute
            "print(1)" true {| srv := [reply_failed]; sent := [] |} [] reply_failed
            eq_refl _)))) "tool offline" eq_refl eq_refl).
  discriminate.
Defined.

(** C2 counterexample: a message containing double quotes is escaped in
    the diagnostic, so it does not appear there verbatim. *)
Lemma run_script_failure_not_verbatim :
  exists msg,
    snd (run_script sample_f64_display sample_kind_debug sample_is_printable
           sample_is_grapheme_extended _ scripted_execute
           "print(x)" true {| srv := [reply_quoted]; sent := [] |}) = Err (ErrMsg msg)
    /\ error_message reply_quoted = Some ("name " ++ chr dq ++ "x" ++ chr dq ++ " is not defined")
    /\ contains msg ("name " ++ chr dq ++ "x" ++ chr dq ++ " is not defined") = false.
Proof.
  eexists; split; [reflexivity|].
  split; [reflexivity | vm_compute; reflexivity].
Qed.

Lemma run_script_absent_response_witness :
  snd (run_script sample_f64_display sample_kind_debug sample_is_printable
         sample_is_grapheme_extended _ scripted_execute
         "x = 1" true {| srv := [reply_empty]; sent := [] |}) = Ok "Script executed (no output)".
Proof.
  exact (run_script_absent_response sample_f64_display sample_kind_debug sample_is_printable
           sample_is_grapheme_extended _ scripted_execute
           "x = 1" true {| srv := [reply_empty]; sent := [] |} [] reply_empty
           eq_refl eq_refl (or_introl eq_refl)).
Defined.

Lemma run_script_kindless_response_witness :
  snd (run_script sample_f64_display sample_kind_debug sample_is_printable
         sample_is_grapheme_extended _ scripted_execute
         "x = 1" false {| srv := [reply_kindless]; sent := [] |}) = Ok "Script executed (no output)".
Proof.
  exact (run_script_kindless_response sample_f64_display sample_kind_debug sample_is_printable
           sample_is_grapheme_extended _ scripted_execute
           "x = 1" false {| srv := [reply_kindless]; sent := [] |} [] reply_kindless
           [("response", mkValue None)] eq_refl eq_refl eq_refl eq_refl).
Defined.

Lemma repl_iter_runs_trimmed_line_witness :
  read_line ("  print(1) " ++ chr nl ++ "exit") = (Ok ("  print(1) " ++ chr nl), "exit")
  /\ trim ("  print(1) " ++ chr nl) = "print(1)"
  /\ sent (fst (run_script sample_f64_display sample_kind_debug sample_is_printable
                 sample_is_grapheme_extended _ scripted_execute
                 "print(1)" true {| srv := [reply_bool]; sent := [] |}))
     = [RpcExecute (run_script_command "print(1)" true)].
Proof.
  split; [reflexivity|]; split; [reflexivity|].
  refine (proj2 (proj2 (proj2 (proj2 (repl_iter_runs_trimmed_line sample_f64_display
            sample_kind_debug sample_status_display sample_is_printable
            sample_is_grapheme_extended _ scripted_execute
            {| stdin := "  print(1) " ++ chr nl ++ "exit"; stdout := []; stdout_open := true;
               client := {| srv := [reply_bool]; sent := [] |} |} eq_refl)
            ("  print(1) " ++ chr nl) "exit" eq_refl)) _ _ _));
    vm_compute; discriminate.
Defined.

(** C4 counterexample: a blank line is neither [exit] nor [quit], and the
    iteration reading it sends no request. *)
Lemma repl_blank_line_sends_nothing :
  repl_iter sample_f64_display sample_kind_debug sample_status_display sample_is_printable
    sample_is_grapheme_extended _ scripted_execute
    {| stdin := chr nl ++ "exit"; stdout := []; stdout_open := true;
       client := {| srv := [reply_bool]; sent := [] |} |}
  = Continue {| stdin := "exit"; stdout := [">>> "]; stdout_open := true;
                client := {| srv := [reply_bool]; sent := [] |} |}.
Proof. reflexivity. Qed.

Lemma repl_no_exit_never_terminates_witness :
  ~ repl_terminates sample_f64_display sample_kind_debug sample_status_display
      sample_is_printable sample_is_grapheme_extended _ scripted_execute
      {| stdin := EmptyString; stdout := []; stdout_open := true;
         client := {| srv := []; sent := [] |} |}.
Proof.
  exact (repl_no_exit_never_terminates sample_f64_display sample_kind_debug
           sample_status_display sample_is_printable sample_is_grapheme_extended _
           scripted_execute
           {| stdin := EmptyString; stdout := []; stdout_open := true;
              client := {| srv := []; sent := [] |} |}
           eq_refl no_exit_eof).
Defined.

Lemma new_connect_failure_witness :
  contains (error_display sample_status_display
              (ErrContext ("Failed to connect to " ++ "http://10.0.0.9:50051")
                 (ErrTransport {| transport_cause := "transport error" |})))
           "http://10.0.0.9:50051" = true.
Proof.
  exact (proj2 (proj2 (new_connect_failure sample_status_display _ unreachable
           "http://10.0.0.9:50051" {| transport_cause := "transport error" |} eq_refl))).
Defined.

Lemma run_script_transport_error_witness :
  run_script sample_f64_display sample_kind_debug sample_is_printable
    sample_is_grapheme_extended _ scripted_execute "print(1)" true
    {| srv := []; sent := [] |}
  = ({| srv := []; sent := [RpcExecute (run_script_command "print(1)" true)] |},
     Err (ErrRpc {| status_code := 14; status_message := "unavailable" |})).
Proof.
  exact (run_script_transport_error sample_f64_display sample_kind_debug sample_is_printable
           sample_is_grapheme_extended _ scripted_execute
           "print(1)" true {| srv := []; sent := [] |} []
           {| status_code := 14; status_message := "unavailable" |} eq_refl).
Defined.

Lemma run_script_command_injective_witness :
  "print(1)" = "print(1)" /\ true = true.
Proof.
  exact (run_script_command_injective "print(1)" "print(1)" true true eq_refl).
Defined.

Lemma main_connect_failure_witness :
  main_run sample_f64_display sample_kind_debug sample_status_display sample_is_printable
    sample_is_grapheme_extended _ scripted_execute scripted_status unreachable 3
    {| server := "http://127.0.0.1:50051"; command := Commands.Demo |} EmptyString
  = Some ([], [], Err (ErrContext ("Failed to connect to " ++ "http://127.0.0.1:50051")
                                  (ErrTransport {| transport_cause := "transport error" |}))).
Proof.
  exact (main_connect_failure sample_f64_display sample_kind_debug sample_status_display
           sample_is_printable sample_is_grapheme_extended _
           scripted_execute scripted_status unreachable 3
           {| server := "http://127.0.0.1:50051"; command := Commands.Demo |} EmptyString
           {| transport_cause := "transport error" |} eq_refl).
Defined.

Lemma main_exec_witness :
  exists out r,
    main_run sample_f64_display sample_kind_debug sample_status_display sample_is_printable
      sample_is_grapheme_extended _ scripted_execute scripted_status (reachable [reply_bool]) 0
      {| server := "http://127.0.0.1:50051"; command := Commands.Exec "print(1)" false |}
      EmptyString
    = Some ([RpcExecute (run_script_command "print(1)" false)], out, r)
    /\ out = ["Executing Python script..." ++ chr nl ++ chr nl;
              "Output:" ++ chr nl ++ "true" ++ chr nl] /\ r = Ok tt.
Proof.
  exact (main_exec sample_f64_display sample_kind_debug sample_status_display
           sample_is_printable sample_is_grapheme_extended _
           scripted_execute scripted_status (reachable [reply_bool]) 0
           "http://127.0.0.1:50051" "print(1)" false EmptyString [reply_bool] eq_refl).
Defined.

Lemma repl_loop_requests_witness :
  repl_loop sample_f64_display sample_kind_debug sample_status_display sample_is_printable
    sample_is_grapheme_extended _ scripted_execute 4
    {| stdin := "print(1)" ++ chr nl ++ nbsp ++ chr nl ++ "quit" ++ chr nl ++ "x";
       stdout := []; stdout_open := true; client := {| srv := [reply_bool]; sent := [] |} |}
  = Some ({| stdin := "x";
             stdout := [">>> "; "true" ++ chr nl; ">>> "; ">>> "; "Goodbye!" ++ chr nl];
             stdout_open := true;
             client := {| srv := [];
                          sent := [RpcExecute (run_script_command "print(1)" true)] |} |},
          Ok tt)
  /\ exists k,
       let '(lines, rest) :=
         split_lines k ("print(1)" ++ chr nl ++ nbsp ++ chr nl ++ "quit" ++ chr nl ++ "x") in
       "x" = rest
       /\ Forall (fun l => utf8_valid l = true) lines
       /\ [RpcExecute (run_script_command "print(1)" true)] =
            app [] (map (fun l => RpcExecute (run_script_command (trim l) true))
                        (filter runs_line lines)).
Proof.
  split; [vm_compute; reflexivity|].
  exact (repl_loop_requests sample_f64_display sample_kind_debug sample_status_display
           sample_is_printable sample_is_grapheme_extended _ scripted_execute 4
           {| stdin := "print(1)" ++ chr nl ++ nbsp ++ chr nl ++ "quit" ++ chr nl ++ "x";
              stdout := []; stdout_open := true;
              client := {| srv := [reply_bool]; sent := [] |} |}
           {| stdin := "x";
              stdout := [">>> "; "true" ++ chr nl; ">>> "; ">>> "; "Goodbye!" ++ chr nl];
              stdout_open := true;
              client := {| srv := [];
                           sent := [RpcExecute (run_script_command "print(1)" true)] |} |}
           eq_refl).
Defined.

Lemma repl_stop_word_ends_witness :
  read_line (nbsp ++ "quit " ++ chr nl ++ "print(1)") = (Ok (nbsp ++ "quit " ++ chr nl), "print(1)")
  /\ repl_loop sample_f64_display sample_kind_debug sample_status_display sample_is_printable
       sample_is_grapheme_extended _ scripted_execute 1
       {| stdin := nbsp ++ "quit " ++ chr nl ++ "print(1)"; stdout := []; stdout_open := true;
          client := {| srv := [reply_bool]; sent := [] |} |}
     = Some ({| stdin := "print(1)"; stdout := [">>> "; "Goodbye!" ++ chr nl];
                stdout_open := true; client := {| srv := [reply_bool]; sent := [] |} |}, Ok tt).
Proof.
  split; [reflexivity|].
  exact (repl_stop_word_ends sample_f64_display sample_kind_debug sample_status_display
           sample_is_printable sample_is_grapheme_extended _ scripted_execute 0
           {| stdin := nbsp ++ "quit " ++ chr nl ++ "print(1)"; stdout := []; stdout_open := true;
              client := {| srv := [reply_bool]; sent := [] |} |}
           (nbsp ++ "quit " ++ chr nl) "print(1)" eq_refl eq_refl (or_intror eq_refl)).
Defined.

Lemma is_proto_entry_witness :
  exists stem, stem <> EmptyString /\ "a.b.proto" = stem ++ ".proto".
Proof.
  exact (proj1 (BuildProps.is_proto_entry "a.b.proto" eq_refl) eq_refl).
Defined.

Lemma build_main_protos_witness :
  let '(_, compiled, r) := Build.build_main sample_build_env in
  compiled = Some ["tools/grpc_interfaces/toolbox.proto"; "tools/grpc_interfaces/pf400.proto"]
  /\ r = Build.Done (Ok tt).
Proof.
  exact (BuildProps.build_main_protos sample_build_env
           ["toolbox.proto"; ".proto"; "README.md"; "pf400.proto"] eq_refl eq_refl eq_refl).
Defined.

Lemma build_main_entry_error_witness :
  let '(_, compiled, r) := Build.build_main broken_build_env in
  compiled = None /\ r = Build.Done (Err (Build.Io "permission denied")).
Proof.
  exact (BuildProps.build_main_entry_error broken_build_env ["toolbox.proto"]
           "permission denied" [] eq_refl eq_refl eq_refl).
Defined.

Lemma build_main_unwrap_panic_witness :
  let '(_, compiled, r) := Build.build_main latin1_build_env in
  compiled = None /\ r = Build.Panic Build.unwrap_none.
Proof.
  exact (BuildProps.build_main_unwrap_panic latin1_build_env ["toolbox.proto"]
           latin1_proto [Ok "pf400.proto"] eq_refl eq_refl eq_refl eq_refl).
Defined.
